(** * swiftql: the SQLite error-log registration shim

    A shallow embedding of [Sources/CSwiftQL/include/sqlite3_extensions.h]:

    <<
    typedef void ( *errorLogCallback )(void *pArg, int iErrCode, const char *zMsg);

    static inline void registerErrorLogCallback(errorLogCallback callback) {
        sqlite3_config(SQLITE_CONFIG_LOG, callback, 0);
    }
    >>

    The header only forwards to the storage engine, so the engine is an
    interface here ([Sqlite3]) and the shim is a computation over a world
    that records every call made through that interface. *)

From Stdlib Require Import ZArith List String Ascii Bool Lia.
From Stdlib Require Import Strings.Byte.
Import ListNotations.
Open Scope Z_scope.
Set Warnings "-register-all,-abstract-large-number".

(** ** C types and values *)

(** The fragment of C's type language the header uses. *)
Inductive ctype : Type :=
| Tvoid
| Tchar
| Tint
| Tconst (t : ctype)
| Tpointer (t : ctype)
| Tfunction (params : list ctype) (result : ctype).

(** Rocq values of a C type: integers and addresses are [Z], a pointer is
    the address it holds (0 for the null pointer). *)
Fixpoint cdenote (t : ctype) : Type :=
  match t with
  | Tvoid => unit
  | Tchar => Z
  | Tint => Z
  | Tconst t' => cdenote t'
  | Tpointer _ => Z
  | Tfunction _ _ => Empty_set
  end.

Definition NULL : Z := 0.

(** The typedef [errorLogCallback]: pointer to a function taking
    [void *pArg], [int iErrCode], [const char *zMsg] and returning [void]. *)
Definition errorLogCallback : ctype :=
  Tpointer (Tfunction [Tpointer Tvoid; Tint; Tpointer (Tconst Tchar)] Tvoid).

(** How a type is passed across a native call: the classes the engine's
    calling convention distinguishes. *)
Inductive abi_class : Type := AbiVoid | AbiInt | AbiPointer.

Fixpoint abi_of (t : ctype) : option abi_class :=
  match t with
  | Tvoid => Some AbiVoid
  | Tchar => Some AbiInt
  | Tint => Some AbiInt
  | Tconst t' => abi_of t'
  | Tpointer _ => Some AbiPointer
  | Tfunction _ _ => None
  end.

Fixpoint abi_params (ts : list ctype) : option (list abi_class) :=
  match ts with
  | [] => Some []
  | t :: ts' =>
      match abi_of t, abi_params ts' with
      | Some AbiVoid, _ => None
      | Some c, Some cs => Some (c :: cs)
      | _, _ => None
      end
  end.

(** The parameter and result classes of a pointer-to-function type; [None]
    for every other type. *)
Definition callback_signature (t : ctype) : option (list abi_class * abi_class) :=
  match t with
  | Tpointer (Tfunction params result) =>
      match abi_params params, abi_of result with
      | Some ps, Some r => Some (ps, r)
      | _, _ => None
      end
  | _ => None
  end.

(** Modelled from the spec: the engine's header is not part of the sources;
    section 6 gives the callback the logging key expects as
    [(context: pointer, code: int, message: pointer) -> void]. *)
Definition engine_log_callback_abi : list abi_class * abi_class :=
  ([AbiPointer; AbiInt; AbiPointer], AbiVoid).

(** An argument of a variadic call, as the call site writes it. *)
Inductive cval : Type :=
| Vint (i : Z)
| Vptr (p : Z)
| Vfunptr (f : Z).

(** What a host function does when it is called. *)
Inductive outcome : Type := Returned | Raised.

(** ** The engine interface *)

(** [sqlite3.h] is outside the sources: its two constants, the variadic
    [int sqlite3_config(int, ...)] and the engine's logging slot are the
    members of an interface. *)
Class Sqlite3 : Type := {
  sqlite3_global : Type;
  SQLITE_OK : Z;
  SQLITE_CONFIG_LOG : Z;
  sqlite3_config : Z -> list cval -> sqlite3_global -> Z * sqlite3_global;
  xLog : sqlite3_global -> Z;
  pLogArg : sqlite3_global -> cval
}.

(** One call through the interface: the key and the variadic arguments. *)
Record ConfigCall : Type := MkConfigCall {
  call_op : Z;
  call_args : list cval
}.

(** One call of a host function by the engine. *)
Record Invocation : Type := MkInvocation {
  inv_fn : Z;
  inv_pArg : cval;
  inv_iErrCode : Z;
  inv_zMsg : string
}.

(** ** A state monad *)

Definition M (S A : Type) : Type := S -> A * S.

Definition ret {S A : Type} (a : A) : M S A := fun s => (a, s).

Definition bind {S A B : Type} (m : M S A) (k : A -> M S B) : M S B :=
  fun s => let (a, s') := m s in k a s'.

Definition exec {S A : Type} (m : M S A) (s : S) : S := snd (m s).
Definition eval {S A : Type} (m : M S A) (s : S) : A := fst (m s).

Declare Scope shim_scope.
Delimit Scope shim_scope with shim.
Notation "x <- m ;; k" := (bind m (fun x => k))
  (at level 61, m at next level, right associativity) : shim_scope.
Notation "m ;;; k" := (bind m (fun _ => k))
  (at level 61, right associativity) : shim_scope.
Open Scope shim_scope.

(** ** The shim *)

Section Shim.
Context {E : Sqlite3}.

(** Everything the shim can touch: the engine's global state and the log
    of calls made into the engine and by the engine into the host. *)
Record World : Type := MkWorld {
  engine : sqlite3_global;
  calls : list ConfigCall;
  invoked : list Invocation
}.

(** The call expression [sqlite3_config(op, args...)]. *)
Definition call_sqlite3_config (op : Z) (args : list cval) : M World Z :=
  fun w =>
    let (rc, e') := sqlite3_config op args (engine w) in
    (rc, {| engine := e';
            calls := calls w ++ [MkConfigCall op args];
            invoked := invoked w |}).

(** [static inline void registerErrorLogCallback(errorLogCallback callback)]:
    an expression statement, whose value is dropped, then the end of a
    [void] function. *)
Definition registerErrorLogCallback (callback : cdenote errorLogCallback)
  : M World unit :=
  call_sqlite3_config SQLITE_CONFIG_LOG [Vfunptr callback; Vint 0] ;;;
  ret tt.

(** The call the shim is expected to make for [callback]. *)
Definition log_config_call (callback : Z) : ConfigCall :=
  MkConfigCall SQLITE_CONFIG_LOG [Vfunptr callback; Vint 0].

(** Registering each callback of a list in turn. *)
Fixpoint register_all (cs : list Z) : M World unit :=
  match cs with
  | [] => ret tt
  | c :: cs' => registerErrorLogCallback c ;;; register_all cs'
  end.

(** The behaviour of the host functions, by address. *)
Variable host : Z -> cval -> Z -> string -> outcome.

(** Modelled from the spec: the engine side of the logging hook, which is
    not part of the sources. The engine "invokes the trampoline" it was
    given, with the context it was given, and nothing when its slot is
    empty; the result is what the engine's call site sees. *)
Definition engine_log (iErrCode : Z) (zMsg : string) : M World outcome :=
  fun w =>
    let f := xLog (engine w) in
    if f =? NULL then (Returned, w)
    else (host f (pLogArg (engine w)) iErrCode zMsg,
          {| engine := engine w;
             calls := calls w;
             invoked := invoked w
               ++ [MkInvocation f (pLogArg (engine w)) iErrCode zMsg] |}).

(** The part of the engine's contract the logging claims rest on: a
    logging configuration the engine accepts installs the callback and
    the context it was passed. *)
Definition config_log_installs : Prop :=
  forall (f : Z) (a : cval) (e e' : sqlite3_global),
    sqlite3_config SQLITE_CONFIG_LOG [Vfunptr f; a] e = (SQLITE_OK, e') ->
    xLog e' = f /\ pLogArg e' = a.

(** The status the engine gives the shim's call in world [w]. *)
Definition register_status (callback : Z) (w : World) : Z :=
  fst (sqlite3_config SQLITE_CONFIG_LOG [Vfunptr callback; Vint 0] (engine w)).

End Shim.

Arguments World E : clear implicits.

Arguments engine {E} w.
Arguments calls {E} w.
Arguments invoked {E} w.

(** ** A simulated engine *)

(** The state of the simulated engine: whether it is past the point where
    configuration is accepted, and its logging slot. *)
Record SimState : Type := MkSimState {
  sim_initialized : bool;
  sim_xLog : Z;
  sim_pLogArg : cval
}.

Definition SIM_OK : Z := 0.
Definition SIM_ERROR : Z := 1.
Definition SIM_MISUSE : Z := 21.
Definition SIM_CONFIG_LOG : Z := 16.

(** Modelled from the spec: the storage engine is an external library. The
    simulated engine accepts a logging configuration of the fixed shape
    (callback, context) and installs it, and rejects configuration once it
    is "initialized past the point configuration is accepted". *)
Definition sim_config (op : Z) (args : list cval) (e : SimState)
  : Z * SimState :=
  if sim_initialized e then (SIM_MISUSE, e)
  else if op =? SIM_CONFIG_LOG then
    match args with
    | [Vfunptr f; a] =>
        (SIM_OK, {| sim_initialized := false; sim_xLog := f; sim_pLogArg := a |})
    | _ => (SIM_ERROR, e)
    end
  else (SIM_ERROR, e).

Definition SimEngine : Sqlite3 := {|
  sqlite3_global := SimState;
  SQLITE_OK := SIM_OK;
  SQLITE_CONFIG_LOG := SIM_CONFIG_LOG;
  sqlite3_config := sim_config;
  xLog := sim_xLog;
  pLogArg := sim_pLogArg
|}.

(** A simulated engine before first use, with an empty logging slot. *)
Definition sim_fresh : World SimEngine :=
  {| engine := {| sim_initialized := false; sim_xLog := NULL;
                  sim_pLogArg := Vint 0 |} : @sqlite3_global SimEngine;
     calls := [];
     invoked := [] |}.

(** A simulated engine already in use: it rejects configuration. *)
Definition sim_in_use : World SimEngine :=
  {| engine := {| sim_initialized := true; sim_xLog := NULL;
                  sim_pLogArg := Vint 0 |} : @sqlite3_global SimEngine;
     calls := [];
     invoked := [] |}.

(** A host with one well-behaved function at address 100 and one that
    fails whenever it is called at address 200. *)
Definition sim_host (f : Z) (_ : cval) (_ : Z) (_ : string) : outcome :=
  if f =? 200 then Raised else Returned.

(** ** What a caller can be told *)

(** Modelled from the spec: the error taxonomy of section 7; the header
    declares no error type. *)
Inductive BridgeError : Type :=
| AlreadyRegistered
| AlreadyUnregistered
| EngineRejected
| HandlerPanic.

(** Modelled from the spec: the [Result<_, BridgeError>] that [register]
    and [unregister] return (section 4.1). *)
Inductive Result (A : Type) : Type :=
| Ok (a : A)
| Err (e : BridgeError).

Arguments Ok {A} a.
Arguments Err {A} e.

(** The result the registration operation is said to surface for an
    engine status. *)
Definition status_result {E : Sqlite3} (rc : Z) : Result unit :=
  if rc =? SQLITE_OK then Ok tt else Err EngineRejected.

(** ** The bridge the spec describes *)

(** Modelled from the spec: [LogEvent], a code and an owned message text
    (section 3); the type is not part of the sources. *)
Record LogEvent : Type := MkLogEvent {
  code : Z;
  message : string
}.

(** Modelled from the spec: a [Handler] is a host closure of signature
    [(LogEvent) -> ()] (section 3), which may raise; [handler_id] tells
    handlers apart in the delivery log. *)
Record Handler : Type := MkHandler {
  handler_id : nat;
  handler_run : LogEvent -> outcome
}.

(** Modelled from the spec: a [RegistrationHandle] (section 3), a reference
    to the handle's entry in the table of handles. *)
Record RegistrationHandle : Type := MkHandle {
  handle_index : nat
}.

(** Modelled from the spec: the bytes of a borrowed C-string, the ones
    before the first NUL of the engine's buffer. *)
Fixpoint cstring_bytes (buf : list byte) : list byte :=
  match buf with
  | [] => []
  | b :: rest => if Byte.eqb b x00 then [] else b :: cstring_bytes rest
  end.

(** Modelled from the spec: "converts rawMessage to an owned text value by
    copying" (section 4.2). *)
Definition copy_message (rawMessage : list byte) : string :=
  string_of_list_byte (cstring_bytes rawMessage).

(** The engine's buffer for a message text: its bytes, the terminator, and
    whatever follows in memory. *)
Definition raw_buffer (msg : string) (rest : list byte) : list byte :=
  list_byte_of_string msg ++ x00 :: rest.

(** A text a C-string can hold has no NUL byte. *)
Definition no_nul (msg : string) : bool :=
  forallb (fun b => negb (Byte.eqb b x00)) (list_byte_of_string msg).

(** Modelled from the spec: setting the "already consumed" flag (section
    4.1) of the handle at index [i]. *)
Fixpoint mark_consumed (i : nat) (flags : list bool) : list bool :=
  match flags, i with
  | [], _ => []
  | _ :: rest, O => true :: rest
  | f :: rest, S i' => f :: mark_consumed i' rest
  end.

(** A message text of [n] copies of the letter a. *)
Fixpoint long_message (n : nat) : string :=
  match n with
  | O => EmptyString
  | S n' => String "a" (long_message n')
  end.

Section Bridge.
Context {E : Sqlite3}.

(** The fixed address of [trampolineEntry]. *)
Variable trampoline : Z.

(** Modelled from the spec: the process-wide state of the bridge, which is
    not part of the sources: the native side, the handler storage slot,
    the "already consumed" flag of every handle issued so far, the events
    delivered to handlers and the secondary diagnostic sink. *)
Record Bridge : Type := MkBridge {
  native : World E;
  slot : option Handler;
  consumed : list bool;
  delivered : list (nat * LogEvent);
  sink : list (BridgeError * LogEvent)
}.

(** Modelled from the spec: [register] (section 4.1), which is not part of
    the sources. It fails with [AlreadyRegistered] when a handler is
    installed, makes the one engine call of the fixed shape (key,
    trampoline, context 0), fails with [EngineRejected] on any status but
    OK, and otherwise stores the handler and issues a fresh handle. *)
Definition register (handler : Handler)
  : M Bridge (Result RegistrationHandle) :=
  fun b =>
    match slot b with
    | Some _ => (Err AlreadyRegistered, b)
    | None =>
        let (rc, w') :=
          call_sqlite3_config SQLITE_CONFIG_LOG
            [Vfunptr trampoline; Vint 0] (native b) in
        if rc =? SQLITE_OK then
          (Ok {| handle_index := List.length (consumed b) |},
           {| native := w';
              slot := Some handler;
              consumed := consumed b ++ [false];
              delivered := delivered b;
              sink := sink b |})
        else
          (Err EngineRejected,
           {| native := w';
              slot := slot b;
              consumed := consumed b;
              delivered := delivered b;
              sink := sink b |})
    end.

(** Modelled from the spec: [unregister] (section 4.1), which is not part
    of the sources. It is guarded by the handle's "already consumed" flag:
    a consumed handle fails with [AlreadyUnregistered] and nothing else
    happens; otherwise the flag is set and the storage slot is cleared
    before the operation returns. The one engine call of a
    register/unregister pair is the one [register] makes. *)
Definition unregister (handle : RegistrationHandle)
  : M Bridge (Result unit) :=
  fun b =>
    match nth_error (consumed b) (handle_index handle) with
    | Some false =>
        (Ok tt,
         {| native := native b;
            slot := None;
            consumed := mark_consumed (handle_index handle) (consumed b);
            delivered := delivered b;
            sink := sink b |})
    | _ => (Err AlreadyUnregistered, b)
    end.

(** Modelled from the spec: [trampolineEntry] (section 4.2), which is not
    part of the sources. It copies the message out, builds the event,
    looks the handler up in the storage slot and invokes it; with no
    handler the event is dropped; a handler's failure is caught and goes
    to the diagnostic sink. *)
Definition trampolineEntry (rawCode : Z) (rawMessage : list byte)
  : M Bridge unit :=
  fun b =>
    let copy := copy_message rawMessage in
    let ev := {| code := rawCode; message := copy |} in
    match slot b with
    | None => (tt, b)
    | Some h =>
        match handler_run h ev with
        | Returned =>
            (tt,
             {| native := native b;
                slot := slot b;
                consumed := consumed b;
                delivered := delivered b ++ [(handler_id h, ev)];
                sink := sink b |})
        | Raised =>
            (tt,
             {| native := native b;
                slot := slot b;
                consumed := consumed b;
                delivered := delivered b ++ [(handler_id h, ev)];
                sink := sink b ++ [(HandlerPanic, ev)] |})
        end
    end.

(** What the host and the engine can do to the bridge. *)
Inductive BridgeOp : Type :=
| OpRegister (handler : Handler)
| OpUnregister (handle : RegistrationHandle)
| OpTrampoline (rawCode : Z) (rawMessage : list byte).

Definition step_op (o : BridgeOp) (b : Bridge) : Bridge :=
  match o with
  | OpRegister handler => exec (register handler) b
  | OpUnregister handle => exec (unregister handle) b
  | OpTrampoline rawCode rawMessage =>
      exec (trampolineEntry rawCode rawMessage) b
  end.

Definition run_ops (ops : list BridgeOp) (b : Bridge) : Bridge :=
  fold_left (fun acc o => step_op o acc) ops b.

(** Operations that unregister the handle [hd]. *)
Definition unregisters (hd : RegistrationHandle) (o : BridgeOp) : bool :=
  match o with
  | OpUnregister hd' => Nat.eqb (handle_index hd') (handle_index hd)
  | _ => false
  end.

(** Operations that install a handler. *)
Definition registers (o : BridgeOp) : bool :=
  match o with
  | OpRegister _ => true
  | _ => false
  end.

End Bridge.

Arguments Bridge E : clear implicits.
Arguments native {E} b.
Arguments slot {E} b.
Arguments consumed {E} b.
Arguments delivered {E} b.
Arguments sink {E} b.

(** A bridge over the simulated engine before anything is registered. *)
Definition sim_bridge : Bridge SimEngine :=
  {| native := sim_fresh;
     slot := None;
     consumed := [];
     delivered := [];
     sink := [] |}.

(** A handler that returns normally on every event. *)
Definition quiet_handler : Handler :=
  {| handler_id := 1; handler_run := fun _ => Returned |}.

(** The address the simulated host gives [trampolineEntry]. *)
Definition sim_trampoline : Z := 500.

(** The engine's buffer for the message "disk I/O error". *)
Definition disk_io_buffer : list byte := raw_buffer "disk I/O error" [].

(** ** The registration claims, read on the shim *)

Section ShimClaims.
Context {E : Sqlite3}.

(** Reading the registration operation as the shim: the caller is told
    [Ok] when the engine answers its OK sentinel and [EngineRejected] on
    every other status. What the caller has in hand is the shim's result,
    so some function of that result has to give the answer. *)
Definition register_surfaces_status : Prop :=
  exists surface : unit -> Result unit,
    forall (c : Z) (w : World E),
      surface (eval (registerErrorLogCallback c) w)
      = status_result (register_status c w).

(** Reading the registration operation as the shim: registering while a
    callback is installed leaves the installed callback in place. *)
Definition register_guards_existing : Prop :=
  forall (c1 c2 : Z) (w : World E),
    xLog (engine w) = c1 -> c1 <> NULL ->
    xLog (engine (exec (registerErrorLogCallback c2) w)) = c1.

(** Reading the boundary as the callback the shim hands to the engine: a
    handler that raises when the engine calls it does not show at the
    engine's call site. *)
Definition handler_failure_contained
    (host : Z -> cval -> Z -> string -> outcome) : Prop :=
  forall (h : Z) (w : World E) (iErrCode : Z) (zMsg : string),
    h <> NULL ->
    register_status h w = SQLITE_OK ->
    host h (Vint 0) iErrCode zMsg = Raised ->
    eval (engine_log host iErrCode zMsg)
         (exec (registerErrorLogCallback h) w) = Returned.

End ShimClaims.

(** * Properties of the shim *)

Section ShimFacts.
Context {E : Sqlite3}.

Lemma call_sqlite3_config_calls (op : Z) (args : list cval) (w : World E) :
  calls (exec (call_sqlite3_config op args) w)
  = calls w ++ [MkConfigCall op args].
Proof.
  unfold exec, call_sqlite3_config.
  destruct (sqlite3_config op args (engine w)); reflexivity.
Qed.

Lemma registerErrorLogCallback_unfold (c : Z) (w : World E) :
  registerErrorLogCallback c w
  = (tt, exec (call_sqlite3_config SQLITE_CONFIG_LOG
                 [Vfunptr c; Vint 0]) w).
Proof.
  unfold registerErrorLogCallback, bind, ret, exec.
  destruct (call_sqlite3_config _ _ w); reflexivity.
Qed.

Lemma registerErrorLogCallback_engine (c : Z) (w : World E) :
  engine (exec (registerErrorLogCallback c) w)
  = snd (sqlite3_config SQLITE_CONFIG_LOG [Vfunptr c; Vint 0] (engine w)).
Proof.
  unfold exec at 1. rewrite registerErrorLogCallback_unfold. simpl.
  unfold exec, call_sqlite3_config.
  destruct (sqlite3_config _ _ (engine w)); reflexivity.
Qed.

Lemma registerErrorLogCallback_calls (c : Z) (w : World E) :
  calls (exec (registerErrorLogCallback c) w)
  = calls w ++ [log_config_call c].
Proof.
  unfold exec at 1. rewrite registerErrorLogCallback_unfold. simpl.
  apply call_sqlite3_config_calls.
Qed.

Lemma registerErrorLogCallback_invoked (c : Z) (w : World E) :
  invoked (exec (registerErrorLogCallback c) w) = invoked w.
Proof.
  unfold exec at 1. rewrite registerErrorLogCallback_unfold. simpl.
  unfold exec, call_sqlite3_config.
  destruct (sqlite3_config _ _ (engine w)); reflexivity.
Qed.

(** An accepted registration leaves the callback itself, with context 0,
    in the engine's slot. *)
Lemma accepted_register_installs (c : Z) (w : World E) :
  config_log_installs ->
  register_status c w = SQLITE_OK ->
  xLog (engine (exec (registerErrorLogCallback c) w)) = c
  /\ pLogArg (engine (exec (registerErrorLogCallback c) w)) = Vint 0.
Proof.
  intros Hinst Hok. rewrite registerErrorLogCallback_engine.
  unfold register_status in Hok.
  destruct (sqlite3_config SQLITE_CONFIG_LOG [Vfunptr c; Vint 0] (engine w))
    as [rc e'] eqn:Hcfg.
  simpl in Hok. subst rc. simpl. exact (Hinst _ _ _ _ Hcfg).
Qed.

Lemma register_all_calls (cs : list Z) (w : World E) :
  calls (exec (register_all cs) w) = calls w ++ map log_config_call cs.
Proof.
  revert w. induction cs as [|c cs IH]; intros w.
  - simpl. unfold exec, ret. simpl. now rewrite app_nil_r.
  - simpl. unfold exec, bind.
    rewrite registerErrorLogCallback_unfold.
    change (snd (register_all cs
              (exec (call_sqlite3_config SQLITE_CONFIG_LOG
                       [Vfunptr c; Vint 0]) w)))
      with (exec (register_all cs)
              (exec (call_sqlite3_config SQLITE_CONFIG_LOG
                       [Vfunptr c; Vint 0]) w)).
    rewrite IH, call_sqlite3_config_calls, <- app_assoc. reflexivity.
Qed.

End ShimFacts.

(** The simulated engine honours the contract [config_log_installs]. *)
Lemma sim_config_log_installs : @config_log_installs SimEngine.
Proof.
  intros f a e e' H. simpl in H. unfold sim_config in H.
  destruct (sim_initialized e).
  - discriminate H.
  - rewrite Z.eqb_refl in H. injection H as <-. split; reflexivity.
Qed.

(** ** C1: the one engine call *)

(** C1. For every callback [c] and every world, [registerErrorLogCallback c]
    adds exactly one call to the log of engine calls; that call is
    [sqlite3_config] with three arguments: the key [SQLITE_CONFIG_LOG], the
    function pointer [c] as given, and the literal 0. The engine's state
    afterwards is the one that single call produced, the host is not called,
    and the function returns nothing. *)
Theorem registerErrorLogCallback_one_config_call
    {E : Sqlite3} (c : Z) (w : World E) :
  let w' := exec (registerErrorLogCallback c) w in
  let call := MkConfigCall SQLITE_CONFIG_LOG [Vfunptr c; Vint 0] in
  calls w' = calls w ++ [call]
  /\ List.length (calls w') = S (List.length (calls w))
  /\ List.length (Vint (call_op call) :: call_args call) = 3%nat
  /\ nth_error (call_args call) 0 = Some (Vfunptr c)
  /\ nth_error (call_args call) 1 = Some (Vint 0)
  /\ engine w'
     = snd (sqlite3_config SQLITE_CONFIG_LOG [Vfunptr c; Vint 0] (engine w))
  /\ invoked w' = invoked w
  /\ eval (registerErrorLogCallback c) w = tt.
Proof.
  cbv zeta.
  pose proof (registerErrorLogCallback_calls c w) as Hcalls.
  unfold log_config_call in Hcalls.
  repeat split.
  - exact Hcalls.
  - rewrite Hcalls, length_app. simpl. lia.
  - apply registerErrorLogCallback_engine.
  - apply registerErrorLogCallback_invoked.
  - now destruct (eval (registerErrorLogCallback c) w).
Qed.

(** ** C2: the engine's status *)

(** C2, as stated, fails on the shim: on the simulated engine the shim
    returns the same (empty) result before first use, where the engine
    answers OK, and in use, where it answers a misuse status, so no reading
    of the result tells [Ok] from [EngineRejected]. *)
Lemma sim_status_not_surfaced : ~ @register_surfaces_status SimEngine.
Proof.
  intros [surface Hs].
  pose proof (Hs 100 sim_fresh) as Hfresh.
  pose proof (Hs 100 sim_in_use) as Hused.
  vm_compute in Hfresh, Hused.
  destruct (surface tt); discriminate.
Qed.

(** C2, amended. [registerErrorLogCallback] returns nothing and drops the
    status of the engine call: for every callback and any two worlds,
    whatever the engine answers in each, nothing computed from the shim's
    result differs between them; the call has been made in both, and the
    engine is left as that call left it. *)
Theorem registerErrorLogCallback_drops_status
    {E : Sqlite3} (c : Z) (w1 w2 : World E)
    (A : Type) (observe : unit -> A) :
  observe (eval (registerErrorLogCallback c) w1)
  = observe (eval (registerErrorLogCallback c) w2)
  /\ calls (exec (registerErrorLogCallback c) w1)
     = calls w1 ++ [log_config_call c]
  /\ calls (exec (registerErrorLogCallback c) w2)
     = calls w2 ++ [log_config_call c]
  /\ engine (exec (registerErrorLogCallback c) w1)
     = snd (sqlite3_config SQLITE_CONFIG_LOG [Vfunptr c; Vint 0] (engine w1)).
Proof.
  repeat split.
  - destruct (eval (registerErrorLogCallback c) w1),
             (eval (registerErrorLogCallback c) w2); reflexivity.
  - apply registerErrorLogCallback_calls.
  - apply registerErrorLogCallback_calls.
  - apply registerErrorLogCallback_engine.
Qed.

(** ** C3: registering again *)

(** C3, as stated, fails on the shim: on the simulated engine, with the
    callback at address 100 installed, registering the one at address 200
    puts 200 in the engine's slot. *)
Lemma sim_second_register_replaces : ~ @register_guards_existing SimEngine.
Proof.
  intros Hguard.
  pose proof (Hguard 100 200
                (exec (registerErrorLogCallback (E := SimEngine) 100)
                      sim_fresh)) as H.
  vm_compute in H.
  assert (Hne : 100 <> 0) by discriminate.
  specialize (H eq_refl Hne). discriminate H.
Qed.

(** C3, amended. [registerErrorLogCallback] keeps no record of a
    registration and cannot fail: for every sequence of calls, each call,
    first or later, makes the same single engine configuration call for its
    own callback; and when the engine accepts a call made while another
    callback is installed, the later callback takes the slot. *)
Theorem register_again_reconfigures
    {E : Sqlite3} (cs : list Z) (c1 c2 : Z) (w : World E) :
  config_log_installs ->
  register_status c2 (exec (registerErrorLogCallback c1) w) = SQLITE_OK ->
  calls (exec (register_all cs) w) = calls w ++ map log_config_call cs
  /\ xLog (engine (exec (registerErrorLogCallback c2)
                        (exec (registerErrorLogCallback c1) w))) = c2.
Proof.
  intros Hinst Hok. split.
  - apply register_all_calls.
  - exact (proj1 (accepted_register_installs c2 _ Hinst Hok)).
Qed.

Lemma register_again_reconfigures_witness :
  calls (exec (register_all (E := SimEngine) [100; 200; 100]) sim_fresh)
  = [log_config_call (E := SimEngine) 100;
     log_config_call (E := SimEngine) 200;
     log_config_call (E := SimEngine) 100]
  /\ sim_xLog (engine (exec (registerErrorLogCallback (E := SimEngine) 200)
                 (exec (registerErrorLogCallback (E := SimEngine) 100)
                       sim_fresh))) = 200.
Proof.
  exact (register_again_reconfigures (E := SimEngine)
           [100; 200; 100] 100 200 sim_fresh
           sim_config_log_installs eq_refl).
Defined.

(** ** C5 and C6: the engine calls back *)

Section Callbacks.
Context {E : Sqlite3}.
Variable host : Z -> cval -> Z -> string -> outcome.

(** After an accepted registration of a non-null callback, one log event
    in the engine is one call of that callback, with context 0 and the
    event's code and text, and the engine's call site sees what the
    callback did. *)
Lemma engine_log_after_register
    (h : Z) (w : World E) (iErrCode : Z) (zMsg : string) :
  config_log_installs ->
  h <> NULL ->
  register_status h w = SQLITE_OK ->
  engine_log host iErrCode zMsg (exec (registerErrorLogCallback h) w)
  = (host h (Vint 0) iErrCode zMsg,
     {| engine := engine (exec (registerErrorLogCallback h) w);
        calls := calls (exec (registerErrorLogCallback h) w);
        invoked := invoked w ++ [MkInvocation h (Vint 0) iErrCode zMsg] |}).
Proof.
  intros Hinst Hnn Hok.
  destruct (accepted_register_installs h w Hinst Hok) as [Hx Ha].
  unfold engine_log. rewrite Hx, Ha.
  destruct (Z.eqb_spec h NULL) as [Heq|_]; [contradiction|].
  now rewrite registerErrorLogCallback_invoked.
Qed.

End Callbacks.

(** C5. After a successful registration of a handler [H] (the engine
    accepted the call), one invocation by the engine of what it was given,
    with code 14 and message "disk I/O error", calls [H] exactly once, and
    the call carries code 14 and the text "disk I/O error". *)
Theorem registered_handler_invoked_once
    {E : Sqlite3} (host : Z -> cval -> Z -> string -> outcome)
    (H : Z) (w : World E) :
  config_log_installs ->
  H <> NULL ->
  register_status H w = SQLITE_OK ->
  let w1 := exec (registerErrorLogCallback H) w in
  let w2 := exec (engine_log host 14 "disk I/O error") w1 in
  exists inv : Invocation,
    invoked w2 = invoked w1 ++ [inv]
    /\ inv_fn inv = H
    /\ inv_iErrCode inv = 14
    /\ inv_zMsg inv = "disk I/O error"%string.
Proof.
  intros Hinst Hnn Hok. cbv zeta.
  exists (MkInvocation H (Vint 0) 14 "disk I/O error").
  unfold exec at 1.
  rewrite (engine_log_after_register host H w 14 _ Hinst Hnn Hok). simpl.
  rewrite registerErrorLogCallback_invoked. repeat split.
Qed.

Lemma registered_handler_invoked_once_witness :
  exists inv : Invocation,
    invoked (exec (engine_log (E := SimEngine) sim_host 14 "disk I/O error")
               (exec (registerErrorLogCallback (E := SimEngine) 100)
                     sim_fresh))
    = invoked (exec (registerErrorLogCallback (E := SimEngine) 100) sim_fresh)
      ++ [inv]
    /\ inv_fn inv = 100
    /\ inv_iErrCode inv = 14
    /\ inv_zMsg inv = "disk I/O error"%string.
Proof.
  refine (registered_handler_invoked_once (E := SimEngine) sim_host 100
            sim_fresh sim_config_log_installs _ eq_refl).
  discriminate.
Defined.

(** C6, as stated, fails on the shim: on the simulated engine, with the
    failing host function at address 200 registered, a log event in the
    engine ends in that failure at the engine's call site. *)
Lemma sim_failure_reaches_engine :
  ~ @handler_failure_contained SimEngine sim_host.
Proof.
  intros Hc.
  assert (Hne : 200 <> NULL) by discriminate.
  pose proof (Hc 200 sim_fresh 14 "disk I/O error"%string
                 Hne eq_refl eq_refl) as H.
  vm_compute in H. discriminate H.
Qed.

(** C6, amended. [registerErrorLogCallback] hands the engine the callback
    itself, with no wrapper between the engine and the host: after an
    accepted registration, what the engine's call site sees when it invokes
    the callback is exactly what the callback does, a failure included; the
    shim catches nothing and has no diagnostic sink. *)
Theorem callback_outcome_reaches_engine
    {E : Sqlite3} (host : Z -> cval -> Z -> string -> outcome)
    (h : Z) (w : World E) (iErrCode : Z) (zMsg : string) :
  config_log_installs ->
  h <> NULL ->
  register_status h w = SQLITE_OK ->
  eval (engine_log host iErrCode zMsg) (exec (registerErrorLogCallback h) w)
  = host h (Vint 0) iErrCode zMsg.
Proof.
  intros Hinst Hnn Hok. unfold eval.
  now rewrite (engine_log_after_register host h w _ _ Hinst Hnn Hok).
Qed.

Lemma callback_outcome_reaches_engine_witness :
  eval (engine_log (E := SimEngine) sim_host 14 "disk I/O error")
       (exec (registerErrorLogCallback (E := SimEngine) 200) sim_fresh)
  = Raised.
Proof.
  refine (callback_outcome_reaches_engine (E := SimEngine) sim_host 200
            sim_fresh 14 "disk I/O error" sim_config_log_installs _ eq_refl).
  discriminate.
Defined.

(** ** C9: the callback type *)

(** C9. The type [errorLogCallback] that the shim accepts is a pointer to a
    function of exactly three parameters, a context pointer, an integer code
    and a message pointer, with no result; this is the signature the engine
    expects for its logging key. *)
Theorem errorLogCallback_is_log_callback :
  (exists pArg iErrCode zMsg : ctype,
      errorLogCallback = Tpointer (Tfunction [pArg; iErrCode; zMsg] Tvoid)
      /\ abi_of pArg = Some AbiPointer
      /\ iErrCode = Tint
      /\ abi_of zMsg = Some AbiPointer)
  /\ callback_signature errorLogCallback = Some engine_log_callback_abi.
Proof.
  split.
  - exists (Tpointer Tvoid), Tint, (Tpointer (Tconst Tchar)).
    repeat split.
  - reflexivity.
Qed.

(** ** C10: no validation *)

(** C10. [registerErrorLogCallback] does not look at its argument: for every
    callback value it is the engine call with that value and nothing else,
    and for the null function pointer in particular it makes the same call,
    with the null pointer as the callback argument, and returns as for any
    other value. *)
Theorem registerErrorLogCallback_forwards_any
    {E : Sqlite3} (c : Z) (w : World E) :
  registerErrorLogCallback c w
  = (tt, exec (call_sqlite3_config SQLITE_CONFIG_LOG
                 [Vfunptr c; Vint 0]) w)
  /\ registerErrorLogCallback NULL w
     = (tt, exec (call_sqlite3_config SQLITE_CONFIG_LOG
                    [Vfunptr NULL; Vint 0]) w)
  /\ calls (exec (registerErrorLogCallback NULL) w)
     = calls w ++ [MkConfigCall SQLITE_CONFIG_LOG [Vfunptr 0; Vint 0]]
  /\ eval (registerErrorLogCallback NULL) w
     = eval (registerErrorLogCallback c) w.
Proof.
  repeat split.
  - apply registerErrorLogCallback_unfold.
  - apply registerErrorLogCallback_unfold.
  - apply (registerErrorLogCallback_calls NULL w).
  - unfold eval. now rewrite !registerErrorLogCallback_unfold.
Qed.

(** * Properties of the bridge *)

Lemma mark_consumed_same (i : nat) (flags : list bool) (f : bool) :
  nth_error flags i = Some f ->
  nth_error (mark_consumed i flags) i = Some true.
Proof.
  revert i. induction flags as [|x flags IH]; intros [|i] H; simpl in *;
    try discriminate; auto.
Qed.

Lemma mark_consumed_other (i j : nat) (flags : list bool) :
  i <> j ->
  nth_error (mark_consumed i flags) j = nth_error flags j.
Proof.
  revert i j. induction flags as [|x flags IH]; intros [|i] [|j] H; simpl;
    try reflexivity; try contradiction.
  apply IH. intros ->. now apply H.
Qed.

Lemma nth_error_snoc_some {A : Type} (l : list A) (x y : A) (i : nat) :
  nth_error l i = Some y -> nth_error (l ++ [x]) i = Some y.
Proof.
  intros H. rewrite nth_error_app1; [exact H|].
  apply nth_error_Some. rewrite H. discriminate.
Qed.

Lemma cstring_bytes_raw (bs rest : list byte) :
  forallb (fun b => negb (Byte.eqb b x00)) bs = true ->
  cstring_bytes (bs ++ x00 :: rest) = bs.
Proof.
  induction bs as [|b bs IH]; simpl; intros H.
  - reflexivity.
  - apply andb_true_iff in H as [Hb Hbs].
    destruct (Byte.eqb b x00); [discriminate Hb|].
    now rewrite IH.
Qed.

(** The copy-out gives back the text the engine wrote. *)
Lemma copy_message_raw_buffer (msg : string) (rest : list byte) :
  no_nul msg = true ->
  copy_message (raw_buffer msg rest) = msg.
Proof.
  intros H. unfold copy_message, raw_buffer.
  rewrite (cstring_bytes_raw _ _ H).
  apply string_of_list_byte_of_string.
Qed.

Section BridgeFacts.
Context {E : Sqlite3}.
Variable trampoline : Z.

Lemma register_ok_live
    (handler : Handler) (b b1 : Bridge E) (hd : RegistrationHandle) :
  register trampoline handler b = (Ok hd, b1) ->
  nth_error (consumed b1) (handle_index hd) = Some false.
Proof.
  unfold register. destruct (slot b); [discriminate|].
  destruct (call_sqlite3_config _ _ (native b)) as [rc w'].
  destruct (rc =? SQLITE_OK); [|discriminate].
  intros H. injection H as <- <-. simpl.
  rewrite nth_error_app2 by lia. now rewrite Nat.sub_diag.
Qed.

(** A consumed handle stays consumed. *)
Lemma step_op_keeps_consumed (o : BridgeOp) (b : Bridge E) (i : nat) :
  nth_error (consumed b) i = Some true ->
  nth_error (consumed (step_op trampoline o b)) i = Some true.
Proof.
  intros H. destruct o as [handler|hd|rawCode rawMessage]; simpl.
  - unfold exec, register. destruct (slot b); [exact H|].
    destruct (call_sqlite3_config _ _ (native b)) as [rc w'].
    destruct (rc =? SQLITE_OK); simpl; [|exact H].
    now apply nth_error_snoc_some.
  - unfold exec, unregister.
    destruct (nth_error (consumed b) (handle_index hd)) as [[|]|] eqn:Hd;
      simpl; try exact H.
    destruct (Nat.eq_dec (handle_index hd) i) as [Heq|Hne].
    + rewrite Heq in Hd. rewrite Hd in H. discriminate H.
    + now rewrite mark_consumed_other.
  - unfold exec, trampolineEntry. destruct (slot b) as [h|]; [|exact H].
    destruct (handler_run h _); exact H.
Qed.

Lemma run_ops_keeps_consumed (ops : list BridgeOp) (b : Bridge E) (i : nat) :
  nth_error (consumed b) i = Some true ->
  nth_error (consumed (run_ops trampoline ops b)) i = Some true.
Proof.
  revert b. induction ops as [|o ops IH]; intros b H; simpl.
  - exact H.
  - apply IH. now apply step_op_keeps_consumed.
Qed.

(** A live handle stays live under every operation but its own
    unregistration. *)
Lemma step_op_keeps_live
    (o : BridgeOp) (b : Bridge E) (hd : RegistrationHandle) :
  unregisters hd o = false ->
  nth_error (consumed b) (handle_index hd) = Some false ->
  nth_error (consumed (step_op trampoline o b)) (handle_index hd)
  = Some false.
Proof.
  intros Ho H. destruct o as [handler|hd'|rawCode rawMessage]; simpl.
  - unfold exec, register. destruct (slot b); [exact H|].
    destruct (call_sqlite3_config _ _ (native b)) as [rc w'].
    destruct (rc =? SQLITE_OK); simpl; [|exact H].
    now apply nth_error_snoc_some.
  - simpl in Ho. apply Nat.eqb_neq in Ho.
    unfold exec, unregister.
    destruct (nth_error (consumed b) (handle_index hd')) as [[|]|];
      simpl; try exact H.
    now rewrite mark_consumed_other.
  - unfold exec, trampolineEntry. destruct (slot b) as [h|]; [|exact H].
    destruct (handler_run h _); exact H.
Qed.

Lemma run_ops_keeps_live
    (ops : list BridgeOp) (b : Bridge E) (hd : RegistrationHandle) :
  existsb (unregisters hd) ops = false ->
  nth_error (consumed b) (handle_index hd) = Some false ->
  nth_error (consumed (run_ops trampoline ops b)) (handle_index hd)
  = Some false.
Proof.
  revert b. induction ops as [|o ops IH]; intros b Hops H; simpl.
  - exact H.
  - simpl in Hops. apply orb_false_iff in Hops as [Ho Hops].
    apply IH; [exact Hops|]. now apply step_op_keeps_live.
Qed.

(** With an empty slot and no registration, nothing is delivered. *)
Lemma step_op_quiet (o : BridgeOp) (b : Bridge E) :
  registers o = false ->
  slot b = None ->
  slot (step_op trampoline o b) = None
  /\ delivered (step_op trampoline o b) = delivered b
  /\ sink (step_op trampoline o b) = sink b
  /\ native (step_op trampoline o b) = native b.
Proof.
  intros Ho Hs. destruct o as [handler|hd|rawCode rawMessage]; simpl.
  - discriminate Ho.
  - unfold exec, unregister.
    destruct (nth_error (consumed b) (handle_index hd)) as [[|]|];
      simpl; auto.
  - unfold exec, trampolineEntry. rewrite Hs. simpl. auto.
Qed.

Lemma run_ops_quiet (ops : list BridgeOp) (b : Bridge E) :
  existsb registers ops = false ->
  slot b = None ->
  slot (run_ops trampoline ops b) = None
  /\ delivered (run_ops trampoline ops b) = delivered b
  /\ sink (run_ops trampoline ops b) = sink b
  /\ native (run_ops trampoline ops b) = native b.
Proof.
  revert b. induction ops as [|o ops IH]; intros b Hops Hs; simpl.
  - auto.
  - simpl in Hops. apply orb_false_iff in Hops as [Ho Hops].
    destruct (step_op_quiet o b Ho Hs) as (Hs' & Hd & Hk & Hn).
    destruct (IH _ Hops Hs') as (Hs'' & Hd' & Hk' & Hn').
    repeat split; congruence.
Qed.

End BridgeFacts.

(** ** C4: unregistering twice *)

(** C4. For every handle a successful [register] returned: the first
    [unregister] on it succeeds, whatever else happened to the bridge in
    between; from then on, at any later time, [unregister] on the same
    handle fails with [AlreadyUnregistered], leaves the bridge as it was and
    so makes no call into the engine. *)
Theorem unregister_second_time_fails
    {E : Sqlite3} (trampoline : Z) (handler : Handler)
    (b b1 : Bridge E) (hd : RegistrationHandle)
    (before after : list BridgeOp) :
  register trampoline handler b = (Ok hd, b1) ->
  existsb (unregisters hd) before = false ->
  let b2 := run_ops trampoline before b1 in
  let b3 := run_ops trampoline after (exec (unregister hd) b2) in
  eval (unregister hd) b2 = Ok tt
  /\ unregister hd b3 = (Err AlreadyUnregistered, b3)
  /\ calls (native (exec (unregister hd) b3)) = calls (native b3).
Proof.
  intros Hreg Hbefore. cbv zeta.
  pose proof (run_ops_keeps_live trampoline before b1 hd Hbefore
                (register_ok_live trampoline handler b b1 hd Hreg)) as Hlive.
  assert (Hfirst : unregister hd (run_ops trampoline before b1)
                   = (Ok tt,
                      exec (unregister hd) (run_ops trampoline before b1))).
  { unfold exec, unregister. now rewrite Hlive. }
  assert (Hdone : nth_error
                    (consumed (exec (unregister hd)
                                 (run_ops trampoline before b1)))
                    (handle_index hd) = Some true).
  { unfold exec, unregister. rewrite Hlive. simpl.
    now apply mark_consumed_same with (f := false). }
  pose proof (run_ops_keeps_consumed trampoline after _ _ Hdone) as Hlater.
  assert (Hsecond :
            unregister hd
              (run_ops trampoline after
                 (exec (unregister hd) (run_ops trampoline before b1)))
            = (Err AlreadyUnregistered,
               run_ops trampoline after
                 (exec (unregister hd) (run_ops trampoline before b1)))).
  { unfold unregister at 1. now rewrite Hlater. }
  repeat split.
  - unfold eval. now rewrite Hfirst.
  - exact Hsecond.
  - unfold exec at 1. now rewrite Hsecond.
Qed.

Lemma unregister_second_time_fails_witness :
  let hd := MkHandle 0 in
  let b1 := exec (register (E := SimEngine) sim_trampoline quiet_handler)
              sim_bridge in
  let b2 := run_ops sim_trampoline
              [OpTrampoline 14 disk_io_buffer; OpRegister quiet_handler] b1 in
  let b3 := run_ops sim_trampoline
              [OpUnregister hd; OpTrampoline 14 disk_io_buffer]
              (exec (unregister hd) b2) in
  eval (unregister hd) b2 = Ok tt
  /\ unregister hd b3 = (Err AlreadyUnregistered, b3)
  /\ calls (native (exec (unregister hd) b3)) = calls (native b3).
Proof.
  exact (unregister_second_time_fails (E := SimEngine)
           sim_trampoline quiet_handler sim_bridge
           (exec (register (E := SimEngine) sim_trampoline quiet_handler)
                 sim_bridge)
           (MkHandle 0)
           [OpTrampoline 14 disk_io_buffer; OpRegister quiet_handler]
           [OpUnregister (MkHandle 0); OpTrampoline 14 disk_io_buffer]
           eq_refl eq_refl).
Defined.

(** ** C7: after unregistering *)

(** C7. Once [unregister] has returned successfully, and for as long as no
    handler is registered again, no trampoline invocation calls a handler:
    after any number of invocations nothing has been delivered and nothing
    has gone to the diagnostic sink, and each invocation returns normally
    and leaves the bridge as it was (the event is dropped). *)
Theorem unregistered_handler_not_invoked
    {E : Sqlite3} (trampoline : Z) (b b' : Bridge E)
    (hd : RegistrationHandle) (later : list BridgeOp) :
  unregister hd b = (Ok tt, b') ->
  existsb registers later = false ->
  delivered (run_ops trampoline later b') = delivered b'
  /\ sink (run_ops trampoline later b') = sink b'
  /\ forall (rawCode : Z) (rawMessage : list byte),
       trampolineEntry rawCode rawMessage (run_ops trampoline later b')
       = (tt, run_ops trampoline later b').
Proof.
  intros Hun Hlater.
  assert (Hs : slot b' = None).
  { unfold unregister in Hun.
    destruct (nth_error (consumed b) (handle_index hd)) as [[|]|];
      try discriminate Hun.
    injection Hun as <-. reflexivity. }
  destruct (run_ops_quiet trampoline later b' Hlater Hs) as (Hs' & Hd & Hk & _).
  repeat split; try assumption.
  intros rawCode rawMessage. unfold trampolineEntry. now rewrite Hs'.
Qed.

Lemma unregistered_handler_not_invoked_witness :
  let hd := MkHandle 0 in
  let b' := exec (unregister hd)
              (exec (register (E := SimEngine) sim_trampoline quiet_handler)
                    sim_bridge) in
  let later := [OpTrampoline 14 disk_io_buffer; OpUnregister hd;
                OpTrampoline 1 disk_io_buffer] in
  delivered (run_ops sim_trampoline later b') = delivered b'
  /\ sink (run_ops sim_trampoline later b') = sink b'.
Proof.
  cbv zeta.
  destruct (unregistered_handler_not_invoked (E := SimEngine) sim_trampoline
              (exec (register (E := SimEngine) sim_trampoline quiet_handler)
                    sim_bridge)
              (exec (unregister (MkHandle 0))
                 (exec (register (E := SimEngine) sim_trampoline quiet_handler)
                       sim_bridge))
              (MkHandle 0)
              [OpTrampoline 14 disk_io_buffer; OpUnregister (MkHandle 0);
               OpTrampoline 1 disk_io_buffer]
              eq_refl eq_refl) as (Hd & Hk & _).
  split; [exact Hd | exact Hk].
Defined.

(** ** C8: the message copy *)

(** C8. For every message text the engine passes to the trampoline (a
    C-string, so without a NUL byte), of any length, whatever follows its
    terminator in memory: the copy is the text itself, of the same length,
    and the event the registered handler is given carries exactly that
    text. *)
Theorem trampoline_message_intact
    {E : Sqlite3} (b : Bridge E) (handler : Handler)
    (rawCode : Z) (msg : string) (rest : list byte) :
  slot b = Some handler ->
  no_nul msg = true ->
  copy_message (raw_buffer msg rest) = msg
  /\ String.length (copy_message (raw_buffer msg rest)) = String.length msg
  /\ delivered (exec (trampolineEntry rawCode (raw_buffer msg rest)) b)
     = delivered b ++ [(handler_id handler,
                        {| code := rawCode; message := msg |})].
Proof.
  intros Hs Hn.
  pose proof (copy_message_raw_buffer msg rest Hn) as Hcopy.
  repeat split.
  - exact Hcopy.
  - now rewrite Hcopy.
  - unfold exec, trampolineEntry. rewrite Hs, Hcopy.
    destruct (handler_run handler _); reflexivity.
Qed.

Lemma trampoline_message_intact_witness :
  let b := exec (register (E := SimEngine) sim_trampoline quiet_handler)
             sim_bridge in
  let msg := long_message 10000 in
  copy_message (raw_buffer msg [x61; x62]) = msg
  /\ String.length (copy_message (raw_buffer msg [x61; x62]))
     = String.length msg
  /\ delivered (exec (trampolineEntry 14 (raw_buffer msg [x61; x62])) b)
     = delivered b ++ [(1%nat, {| code := 14; message := msg |})].
Proof.
  refine (trampoline_message_intact (E := SimEngine)
            (exec (register (E := SimEngine) sim_trampoline quiet_handler)
                  sim_bridge)
            quiet_handler 14 (long_message 10000) [x61; x62] eq_refl _).
  vm_compute. reflexivity.
Defined.


(** * Sequences of registrations *)

Section Sequences.
Context {E : Sqlite3}.

Lemma register_all_step (c : Z) (cs : list Z) (w : World E) :
  exec (register_all (c :: cs)) w
  = exec (register_all cs) (exec (registerErrorLogCallback c) w).
Proof.
  simpl. unfold exec at 1 3, bind.
  destruct (registerErrorLogCallback c w) as [u w']. reflexivity.
Qed.

Lemma register_all_app (cs1 cs2 : list Z) (w : World E) :
  exec (register_all (cs1 ++ cs2)) w
  = exec (register_all cs2) (exec (register_all cs1) w).
Proof.
  revert w. induction cs1 as [|c cs1 IH]; intros w.
  - reflexivity.
  - rewrite <- app_comm_cons, !register_all_step. apply IH.
Qed.


(** X2. The last registration wins, whatever came before: after any
    sequence of registrations, a further call of [registerErrorLogCallback]
    that the engine accepts leaves its own callback in the engine's slot,
    with context 0, on every engine that installs the logging configuration
    it accepts. *)
Theorem last_registration_wins (cs : list Z) (c : Z) (w : World E) :
  config_log_installs ->
  register_status c (exec (register_all cs) w) = SQLITE_OK ->
  xLog (engine (exec (register_all (cs ++ [c])) w)) = c
  /\ pLogArg (engine (exec (register_all (cs ++ [c])) w)) = Vint 0.
Proof.
  intros Hinst Hok.
  rewrite register_all_app, register_all_step.
  change (exec (register_all []) ?x) with x.
  exact (accepted_register_installs c _ Hinst Hok).
Qed.

End Sequences.

Lemma last_registration_wins_witness :
  sim_xLog (engine (exec (register_all (E := SimEngine) ([100; 200] ++ [300]))
                         sim_fresh)) = 300
  /\ sim_pLogArg (engine (exec (register_all (E := SimEngine)
                                  ([100; 200] ++ [300])) sim_fresh))
     = Vint 0.
Proof.
  exact (last_registration_wins (E := SimEngine) [100; 200] 300 sim_fresh
           sim_config_log_installs eq_refl).
Defined.
